(** * Pink barriers: the UR5 demo and the barrier unit tests

  A shallow embedding of [examples/barriers/arm_ur5.py] and
  [tests/test_barrier.py].  Both files are callers of the [pink] library,
  of [pinocchio], [qpsolvers], [meshcat] and [loop_rate_limiters]: the
  scripts are embedded as interaction trees whose events are the calls
  into those libraries, and a fuel-bounded runner replays a script against
  an arbitrary environment and records the trace of calls.

  Python floats are idealised as real numbers ([R]); [np.sin] is [sin]. *)

From Stdlib Require Import String Ascii List Bool Arith Lia Reals Lra Morphisms.
From ITree Require Import ITree ITreeFacts.
Import ListNotations.
Import ITreeNotations.

Local Open Scope string_scope.
Local Open Scope list_scope.

(* ===================================================================== *)
(** ** Python values shared by both scripts *)
(* ===================================================================== *)

Module Py.

(** A raised exception: its class name, its message and the exception it
    was chained from ([raise ... from exc] sets [__cause__]). *)
Inductive Exception : Type :=
| Exc (ty : string) (msg : string)
| ExcFrom (ty : string) (msg : string) (cause : Exception).

Definition exc_type (e : Exception) : string :=
  match e with Exc ty _ | ExcFrom ty _ _ => ty end.
Definition exc_msg (e : Exception) : string :=
  match e with Exc _ m | ExcFrom _ m _ => m end.
Definition exc_cause (e : Exception) : option Exception :=
  match e with Exc _ _ => None | ExcFrom _ _ c => Some c end.

(** [isinstance(exc, cls)], the test an [except cls] clause makes: the
    class of [exc] is [cls] or inherits from it.  [ancestors] gives, for
    the name of a class, the classes it inherits from. *)
Definition isinstance (ancestors : string -> list string) (exc : Exception)
  (cls : string) : bool :=
  String.eqb (exc_type exc) cls ||
  existsb (String.eqb cls) (ancestors (exc_type exc)).

(** The built-in exception classes that the scripts meet, and
    [importlib.metadata.PackageNotFoundError], a subclass of
    [ModuleNotFoundError]; any other class is taken to inherit from
    [Exception] directly. *)
Definition exception_classes (cls : string) : list string :=
  if String.eqb cls "PackageNotFoundError"
  then ["ModuleNotFoundError"; "ImportError"; "Exception"; "BaseException"]
  else if String.eqb cls "ModuleNotFoundError"
  then ["ImportError"; "Exception"; "BaseException"]
  else if String.eqb cls "IndexError"
  then ["LookupError"; "Exception"; "BaseException"]
  else if String.eqb cls "BaseException" then []
  else if String.eqb cls "Exception" then ["BaseException"]
  else ["Exception"; "BaseException"].

(** [needle in hay] on [str]: some suffix of [hay] starts with [needle]. *)
Fixpoint contains (needle hay : string) : bool :=
  prefix needle hay ||
  match hay with
  | EmptyString => false
  | String _ rest => contains needle rest
  end.

(** [x in xs] on a list of [str]. *)
Fixpoint str_in (x : string) (xs : list string) : bool :=
  match xs with
  | [] => false
  | y :: ys => String.eqb y x || str_in x ys
  end.

(** [s * n] on [str]. *)
Fixpoint str_mul (s : string) (n : nat) : string :=
  match n with
  | O => EmptyString
  | S k => s ++ str_mul s k
  end.

End Py.

(* ===================================================================== *)
(** ** NumPy arrays of floats *)
(* ===================================================================== *)

Module Np.
Local Open Scope R_scope.

Definition Vec := list R.
Definition Matrix := list Vec.

(** [np.zeros(n)] and [np.zeros((n, m))]. *)
Definition zeros (n : nat) : Vec := repeat 0 n.
Definition zeros2 (n m : nat) : Matrix := repeat (zeros m) n.

(** [np.eye(n)]. *)
Definition eye (n : nat) : Matrix :=
  List.map (fun i => List.map (fun j => if Nat.eqb i j then 1 else 0) (seq 0 n))
           (seq 0 n).

(** [a * v] and [a * M] for a scalar [a]. *)
Definition scale (a : R) (v : Vec) : Vec := List.map (Rmult a) v.
Definition scale2 (a : R) (M : Matrix) : Matrix := List.map (scale a) M.

(** [u - v], elementwise. *)
Fixpoint sub (u v : Vec) : Vec :=
  match u, v with
  | x :: u', y :: v' => (x - y) :: sub u' v'
  | _, _ => []
  end.

(** [M.shape == (n, m)]. *)
Definition has_shape (M : Matrix) (n m : nat) : Prop :=
  length M = n /\ Forall (fun row => length row = m) M.

(** Every entry is exactly zero. *)
Definition all_zero (v : Vec) : Prop := Forall (fun x => x = 0) v.
Definition all_zero2 (M : Matrix) : Prop := Forall all_zero M.

(** [np.any(v != 0)]. *)
Definition any_nonzero (v : Vec) : Prop := Exists (fun x => x <> 0) v.
Definition any_nonzero2 (M : Matrix) : Prop := Exists any_nonzero M.

(** [np.allclose(a, 0)] with the default tolerances [rtol = 1e-5] and
    [atol = 1e-8]: [|a - 0| <= atol + rtol * |0|] for every entry. *)
Definition close0 (x : R) : Prop := Rabs (x - 0) <= 1e-8 + 1e-5 * Rabs 0.
Definition allclose0 (v : Vec) : Prop := Forall close0 v.
Definition allclose0_2 (M : Matrix) : Prop := Forall allclose0 M.

End Np.

(* ===================================================================== *)
(** ** Rigid transforms ([pinocchio.SE3]) *)
(* ===================================================================== *)

Module Pin.
Local Open Scope R_scope.

(** The three valid indices of a translation vector. *)
Inductive Index3 : Type := I0 | I1 | I2.

Definition index_of_nat (i : nat) : option Index3 :=
  match i with
  | 0%nat => Some I0
  | 1%nat => Some I1
  | 2%nat => Some I2
  | _ => None
  end.

Record Vector3 : Type := MkVector3 { v0 : R; v1 : R; v2 : R }.

(** [v[i]] and [v[i] = x]. *)
Definition getitem (v : Vector3) (i : Index3) : R :=
  match i with I0 => v0 v | I1 => v1 v | I2 => v2 v end.

Definition setitem (v : Vector3) (i : Index3) (x : R) : Vector3 :=
  match i with
  | I0 => MkVector3 x (v1 v) (v2 v)
  | I1 => MkVector3 (v0 v) x (v2 v)
  | I2 => MkVector3 (v0 v) (v1 v) x
  end.

Definition to_vec (v : Vector3) : Np.Vec := [v0 v; v1 v; v2 v].

Record SE3 : Type := MkSE3 {
  rotation : Vector3 * Vector3 * Vector3;   (* rows of the rotation matrix *)
  translation : Vector3;
}.

(** [T.translation[i] = x]: the translation is mutated in place, the
    rotation is untouched. *)
Definition set_translation (T : SE3) (i : Index3) (x : R) : SE3 :=
  MkSE3 (rotation T) (setitem (translation T) i x).

(** [T.np]: the 4 x 4 homogeneous matrix. *)
Definition np (T : SE3) : Np.Matrix :=
  let '(r0, r1, r2) := rotation T in
  let p := translation T in
  [ to_vec r0 ++ [v0 p];
    to_vec r1 ++ [v1 p];
    to_vec r2 ++ [v2 p];
    [0; 0; 0; 1] ].

End Pin.

(* ===================================================================== *)
(** ** Objects of the [pink] library that the scripts construct *)
(* ===================================================================== *)

Module Pink.
Local Open Scope R_scope.

(** A gain is passed either as a number or as an array. *)
Inductive Gain : Type :=
| ScalarGain (g : R)
| ArrayGain (g : Np.Vec).

(** [FrameTask(frame, position_cost=, orientation_cost=, lm_damping=)];
    [transform_target_to_world] is the attribute the demo reads and
    mutates, unset until a target is given. *)
Record FrameTask : Type := MkFrameTask {
  frame : string;
  position_cost : R;
  orientation_cost : R;
  lm_damping : R;
  transform_target_to_world : option Pin.SE3;
}.

(** [PostureTask(cost=)]. *)
Record PostureTask : Type := MkPostureTask { cost : R }.

Inductive Task : Type :=
| TFrame (task : FrameTask)
| TPosture (task : PostureTask).

(** [PositionBarrier(frame, indices=, p_min=, max=, gain=, r=)]: the
    keyword arguments the two scripts pass; an omitted keyword is [None].
    [indices] selects coordinates of a position, so it ranges over the
    three of them. *)
Record PositionBarrier : Type := MkPositionBarrier {
  pb_frame : string;
  indices : option (list Pin.Index3);
  p_min : option Np.Vec;
  max : option Np.Vec;
  pb_gain : option Gain;
  pb_r : option R;
}.

(** [ConfigurationBarrier(model, gain=, r=)]. *)
Record ConfigurationBarrier (Model : Type) : Type := MkConfigurationBarrier {
  cb_model : Model;
  cb_gain : option Gain;
  cb_r : option R;
}.
Arguments MkConfigurationBarrier {Model}.
Arguments cb_model {Model}.
Arguments cb_gain {Model}.
Arguments cb_r {Model}.

Inductive Barrier (Model : Type) : Type :=
| BPosition (b : PositionBarrier)
| BConfiguration (b : ConfigurationBarrier Model).
Arguments BPosition {Model}.
Arguments BConfiguration {Model}.

Definition is_configuration_barrier {Model} (b : Barrier Model) : bool :=
  match b with BConfiguration _ => true | BPosition _ => false end.

(** What [print] receives from an f-string: literal text, [str] of an
    array or of a float, and a float under the format [0.3f]. *)
Inductive Fragment : Type :=
| Text (s : string)
| StrVec (v : Np.Vec)
| StrFloat (x : R)
| Fixed3 (x : R).

End Pink.

(* ===================================================================== *)
(** ** [examples/barriers/arm_ur5.py] *)
(* ===================================================================== *)

Module ArmUr5.
Import Py Pink.
Local Open Scope itree_scope.
Local Open Scope R_scope.

Section Script.

(** Objects owned by the libraries: the script only holds them and hands
    them back, so their types are left open. *)
Variables Robot Model Data Viz Viewer Configuration Rate : Type.
Variable robot_model : Robot -> Model.          (* [robot.model] *)
Variable robot_data : Robot -> Data.            (* [robot.data] *)
Variable viz_viewer : Viz -> Viewer.            (* [viz.viewer] *)
Variable rate_period : Rate -> R.               (* [rate.period] *)

(** [qpsolvers.available_solvers], fixed once [qpsolvers] is imported. *)
Variable available_solvers : list string.

(** The exception classes of the interpreter that runs the script, those
    of the libraries included: for the name of a class, the classes it
    inherits from (its [__mro__], the class itself apart). *)
Variable ancestors : string -> list string.

(** The calls the script makes into its libraries, each with the type of
    what the call returns.  [Raise] is the script's own [raise]. *)
Variant DemoE : Type -> Type :=
| Import (module : string) : DemoE unit
| ImportGuarded (module : string) : DemoE (option Exception)
| Raise (exc : Exception) : DemoE Empty_set
| LoadRobotDescription (name : string) (root_joint : option string) : DemoE Robot
| StartMeshcatVisualizer (robot : Robot) : DemoE Viz
| NewConfiguration (model : Model) (data : Data) (q : Np.Vec) : DemoE Configuration
| FrameTask_set_target_from_configuration
    (task : FrameTask) (c : Configuration) : DemoE Pin.SE3
| PostureTask_set_target_from_configuration
    (task : PostureTask) (c : Configuration) : DemoE unit
| Configuration_q (c : Configuration) : DemoE Np.Vec
| Display (viz : Viz) (q : Np.Vec) : DemoE unit
| MeshcatFrame (viewer : Viewer) (path : string) (opacity : R) : DemoE unit
| NewRateLimiter (frequency : R) : DemoE Rate
| SetTransform (viewer : Viewer) (path : string) (T : Np.Matrix) : DemoE unit
| GetTransformFrameToWorld (c : Configuration) (frame : string) : DemoE Pin.SE3
| SolveIk (c : Configuration) (tasks : list Task) (dt : R) (solver : string)
          (cbfs : list (Barrier Model)) (use_position_limit : bool) : DemoE Np.Vec
| IntegrateInplace (c : Configuration) (velocity : Np.Vec) (dt : R) : DemoE unit
| ComputeQpInequality (b : Barrier Model) (c : Configuration) (dt : R)
    : DemoE (Np.Matrix * Np.Vec)
| FrameTask_compute_error (task : FrameTask) (c : Configuration) : DemoE Np.Vec
| ComputeBarrier (b : Barrier Model) (c : Configuration) : DemoE Np.Vec
| Print (line : list Fragment) : DemoE unit
| Sleep (rate : Rate) : DemoE unit.

Definition raise {X : Type} (exc : Exception) : itree DemoE X :=
  x <- ITree.trigger (Raise exc) ;; match x : Empty_set with end.

(** *** Module level: the imports and the guard around the loader *)

Definition hint : string :=
  "Examples need robot_descriptions, " ++ "try ``pip install robot_descriptions``".

(** [except ModuleNotFoundError as exc: raise ModuleNotFoundError(hint)
    from exc]: an exception of that class or of a subclass of it leaves as
    the new one, chained from it; any other exception is not caught and
    leaves as it is. *)
Definition except_ModuleNotFoundError (exc : Exception) : Exception :=
  if isinstance ancestors exc "ModuleNotFoundError"
  then ExcFrom "ModuleNotFoundError" hint exc
  else exc.

Definition imports : itree DemoE unit :=
  ITree.trigger (Import "meshcat_shapes") ;;
  ITree.trigger (Import "numpy") ;;
  ITree.trigger (Import "qpsolvers") ;;
  ITree.trigger (Import "loop_rate_limiters") ;;
  ITree.trigger (Import "pink") ;;
  ITree.trigger (Import "pink") ;;
  ITree.trigger (Import "pink.barriers") ;;
  ITree.trigger (Import "pink.tasks") ;;
  ITree.trigger (Import "pink.visualization") ;;
  failure <- ITree.trigger (ImportGuarded "robot_descriptions.loaders.pinocchio") ;;
  match failure with
  | None => Ret tt
  | Some exc => raise (except_ModuleNotFoundError exc)
  end.

(** *** The objects built before the loop *)

Definition end_effector_task0 : FrameTask :=
  MkFrameTask "ee_link" 50.0 1.0 100 None.

Definition posture_task : PostureTask := MkPostureTask 1e-3.

Definition pos_cbf : PositionBarrier :=
  MkPositionBarrier "ee_link" (Some [Pin.I1]) None (Some [0.6])
                    (Some (ArrayGain [100.0])) (Some 1.0).

Definition configuration_cbf (robot : Robot) : ConfigurationBarrier Model :=
  MkConfigurationBarrier (robot_model robot) (Some (ScalarGain 1)) (Some 100.0).

Definition cbf_list (robot : Robot) : list (Barrier Model) :=
  [BPosition pos_cbf; BConfiguration (configuration_cbf robot)].

Definition q_ref : Np.Vec :=
  [1.27153374; -0.87988708; 1.89104795; 1.73996951; -0.24610945; -0.74979019].

(** [tasks = [end_effector_task, posture_task]] holds the two task objects
    themselves: the list is kept as the names of its members and read
    against the current state of [end_effector_task], the one object the
    script mutates. *)
Inductive TaskName : Type := end_effector_task | posture_task_.

Definition tasks : list TaskName := [end_effector_task; posture_task_].

Definition task_object (ee : FrameTask) (n : TaskName) : Task :=
  match n with
  | end_effector_task => TFrame ee
  | posture_task_ => TPosture posture_task
  end.

(** [for task in tasks: task.set_target_from_configuration(configuration)] *)
Fixpoint set_targets (names : list TaskName) (c : Configuration) (ee : FrameTask)
  : itree DemoE FrameTask :=
  match names with
  | [] => Ret ee
  | end_effector_task :: rest =>
      T <- ITree.trigger (FrameTask_set_target_from_configuration ee c) ;;
      set_targets rest c
        (MkFrameTask (frame ee) (position_cost ee) (orientation_cost ee)
                     (lm_damping ee) (Some T))
  | posture_task_ :: rest =>
      ITree.trigger (PostureTask_set_target_from_configuration posture_task c) ;;
      set_targets rest c ee
  end.

(** Solver selection (lines 75-77): [available_solvers[0]] raises
    [IndexError] on an empty list. *)
Definition select_solver (available : list string) : option string :=
  match available with
  | [] => None
  | first :: _ => Some (if str_in "osqp" available then "osqp" else first)
  end.

(** *** The control loop *)

(** The names bound before the loop and never rebound in it. *)
Record Vars : Type := MkVars {
  robot : Robot;
  viz : Viz;
  configuration : Configuration;
  solver : string;
  rate : Rate;
}.

Definition viewer (g : Vars) : Viewer := viz_viewer (viz g).
Definition dt (g : Vars) : R := rate_period (rate g).

(** What an iteration changes: the end-effector task (its target is
    mutated through the alias [end_effector_target]) and the clock [t]. *)
Record LoopState : Type := MkLoopState {
  ee_task : FrameTask;
  t : R;
}.

(** Lines 84-86: the pose object of the task is updated in place. *)
Definition update_target (T : Pin.SE3) (t : R) : Pin.SE3 :=
  let T1 := Pin.set_translation T Pin.I1 (0.0 + 0.7 * sin (t / 2)) in
  Pin.set_translation T1 Pin.I2 0.2.

Definition with_target (task : FrameTask) (T : Pin.SE3) : FrameTask :=
  MkFrameTask (frame task) (position_cost task) (orientation_cost task)
              (lm_damping task) (Some T).

Definition loop_body (g : Vars) (s : LoopState) : itree DemoE LoopState :=
  match transform_target_to_world (ee_task s) with
  | None =>
      raise (Exc "AttributeError" "'NoneType' object has no attribute 'translation'")
  | Some T =>
      let end_effector_target := update_target T (t s) in
      let ee := with_target (ee_task s) end_effector_target in
      ITree.trigger (SetTransform (viewer g) "end_effector_target"
                                  (Pin.np end_effector_target)) ;;
      X <- ITree.trigger (GetTransformFrameToWorld (configuration g) (frame ee)) ;;
      ITree.trigger (SetTransform (viewer g) "end_effector" (Pin.np X)) ;;
      velocity <- ITree.trigger
        (SolveIk (configuration g) (List.map (task_object ee) tasks) (dt g)
                 (solver g) (cbf_list (robot g)) false) ;;
      ITree.trigger (IntegrateInplace (configuration g) velocity (dt g)) ;;
      _ <- ITree.trigger
        (ComputeQpInequality (BPosition pos_cbf) (configuration g) (dt g)) ;;
      err <- ITree.trigger (FrameTask_compute_error ee (configuration g)) ;;
      ITree.trigger (Print [Text "Task error: "; StrVec err]) ;;
      h <- ITree.trigger (ComputeBarrier (BPosition pos_cbf) (configuration g)) ;;
      match h with
      | [] => raise (Exc "IndexError" "index 0 is out of bounds for axis 0 with size 0")
      | h0 :: _ =>
          ITree.trigger (Print [Text "Position CBF value: "; Fixed3 h0; Text " >= 0"]) ;;
          hc <- ITree.trigger
            (ComputeBarrier (BConfiguration (configuration_cbf (robot g)))
                            (configuration g)) ;;
          ITree.trigger (Print [Text "Configuration CBF value: "; StrVec hc;
                                Text " >= 0"]) ;;
          Y <- ITree.trigger (GetTransformFrameToWorld (configuration g) "ee_link") ;;
          ITree.trigger
            (Print [Text "Distance to manipulator: ";
                    StrFloat (Pin.getitem (Pin.translation Y) Pin.I1);
                    Text " <= 0.6"]) ;;
          ITree.trigger (Print [Text (str_mul "-" 60)]) ;;
          q <- ITree.trigger (Configuration_q (configuration g)) ;;
          ITree.trigger (Display (viz g) q) ;;
          ITree.trigger (Sleep (rate g)) ;;
          Ret (MkLoopState ee (t s + dt g))
      end
  end.

(** [while cond: body], run from state [s]. *)
Definition while {S : Type} (cond : S -> bool) (body : S -> itree DemoE S)
  : S -> itree DemoE S :=
  ITree.iter (fun s => if cond s
                       then s' <- body s ;; Ret (inl s')
                       else Ret (inr s)).

(** [while True:] over the loop body. *)
Definition control_loop (g : Vars) : LoopState -> itree DemoE LoopState :=
  while (fun _ => true) (loop_body g).

(** *** [if __name__ == "__main__":] *)

Definition main : itree DemoE unit :=
  robot <- ITree.trigger (LoadRobotDescription "ur5_description" None) ;;
  viz <- ITree.trigger (StartMeshcatVisualizer robot) ;;
  configuration <- ITree.trigger
    (NewConfiguration (robot_model robot) (robot_data robot) q_ref) ;;
  ee <- set_targets tasks configuration end_effector_task0 ;;
  q <- ITree.trigger (Configuration_q configuration) ;;
  ITree.trigger (Display viz q) ;;
  ITree.trigger (MeshcatFrame (viz_viewer viz) "end_effector_target" 1.0) ;;
  match select_solver available_solvers with
  | None => raise (Exc "IndexError" "list index out of range")
  | Some solver =>
      rate <- ITree.trigger (NewRateLimiter 200.0) ;;
      control_loop (MkVars robot viz configuration solver rate)
                   (MkLoopState ee 0.0) ;;
      Ret tt
  end.

Definition script (name : string) : itree DemoE unit :=
  imports ;;
  if String.eqb name "__main__" then main else Ret tt.

(** *** Running a script against its environment *)

(** One entry per call: what was called and what came back, a value or
    an exception. *)
Inductive Entry : Type :=
| Called {X : Type} (e : DemoE X) (x : X)
| Failed {X : Type} (e : DemoE X) (exc : Exception).

Inductive Outcome (A : Type) : Type :=
| Running                      (* the fuel ran out: the script goes on *)
| Returned (a : A)
| Raised (exc : Exception).
Arguments Running {A}.
Arguments Returned {A}.
Arguments Raised {A}.

Definition returned {A} (o : Outcome A) : bool :=
  match o with Returned _ => true | _ => false end.

Definition raised_by_script {X} (e : DemoE X) : option Exception :=
  match e with Raise exc => Some exc | _ => None end.

Section Run.
(** The libraries as the script sees them: a state of their own and,
    for every call, either an exception or a result.  No [try] of the
    script surrounds a call, so an exception ends the run. *)
Variable World : Type.
Variable respond : World -> forall X, DemoE X -> (Exception + X) * World.

Fixpoint run {A} (fuel : nat) (w : World) (p : itree DemoE A)
  : list Entry * Outcome A :=
  match fuel with
  | O => ([], Running)
  | S fuel' =>
      match observe p with
      | RetF a => ([], Returned a)
      | TauF p' => run fuel' w p'
      | VisF e k =>
          match raised_by_script e with
          | Some exc => ([Failed e exc], Raised exc)
          | None =>
              match respond w _ e with
              | (inl exc, _) => ([Failed e exc], Raised exc)
              | (inr x, w') =>
                  let r := run fuel' w' (k x) in (Called e x :: fst r, snd r)
              end
          end
      end
  end.
End Run.

(** *** Reading a trace *)

(** The arguments of one call of [solve_ik]. *)
Record SolveIkCall : Type := MkSolveIkCall {
  sc_configuration : Configuration;
  sc_tasks : list Task;
  sc_dt : R;
  sc_solver : string;
  sc_cbfs : list (Barrier Model);
  sc_use_position_limit : bool;
}.

Definition solve_ik_call {X} (e : DemoE X) : option SolveIkCall :=
  match e with
  | SolveIk c ts d s cb u => Some (MkSolveIkCall c ts d s cb u)
  | _ => None
  end.

Definition entry_solve_ik (en : Entry) : option SolveIkCall :=
  match en with
  | Called e _ => solve_ik_call e
  | Failed e _ => solve_ik_call e
  end.

(** Every call of [solve_ik] recorded in the trace satisfies [P]. *)
Definition every_solve_ik (P : SolveIkCall -> Prop) (tr : list Entry) : Prop :=
  Forall (fun en => match entry_solve_ik en with
                    | Some call => P call
                    | None => True
                    end) tr.

(** [rate.sleep()] returned: an iteration is complete. *)
Definition slept (en : Entry) : bool :=
  match en with
  | Called (Sleep _) _ => true
  | _ => false
  end.

Definition completed_iterations (tr : list Entry) : nat :=
  length (filter slept tr).

(** Calls and the back edge of one iteration: 18 calls, then the jump back
    to [while True]. *)
Definition iteration_steps : nat := 19.

(** How often a call that returned occurs in a trace. *)
Definition count (p : forall X, DemoE X -> bool) (tr : list Entry) : nat :=
  length (filter (fun en => match en with
                            | Called e _ => p _ e
                            | Failed _ _ => false
                            end) tr).

Definition is_solve_ik {X} (e : DemoE X) : bool :=
  match e with SolveIk _ _ _ _ _ _ => true | _ => false end.
Definition is_integrate {X} (e : DemoE X) : bool :=
  match e with IntegrateInplace _ _ _ => true | _ => false end.
Definition is_display {X} (e : DemoE X) : bool :=
  match e with Display _ _ => true | _ => false end.
Definition is_sleep {X} (e : DemoE X) : bool :=
  match e with Sleep _ => true | _ => false end.
Definition is_print {X} (e : DemoE X) : bool :=
  match e with Print _ => true | _ => false end.

(** *** The order of calls within an iteration *)

Inductive Phase : Type :=
| Updating                 (* targets and frames are updated, before [solve_ik] *)
| Solved (velocity : Np.Vec)   (* [solve_ik] returned [velocity] *)
| Integrated               (* the configuration is advanced, before the redraw *)
| Redrawn                  (* [viz.display] is done, before the sleep *).

Definition loop_call {X} (e : DemoE X) : bool :=
  match e with
  | SolveIk _ _ _ _ _ _ | IntegrateInplace _ _ _ | Display _ _ | Sleep _ => true
  | _ => false
  end.

Section Protocol.
Variable g : Vars.

(** The calls a phase admits. *)
Inductive allowed : Phase -> forall X, DemoE X -> Prop :=
| allowed_solve_ik ee solver limit :
    allowed Updating _
      (SolveIk (configuration g) [TFrame ee; TPosture posture_task] (dt g)
               solver (cbf_list (robot g)) limit)
| allowed_integrate velocity :
    allowed (Solved velocity) _ (IntegrateInplace (configuration g) velocity (dt g))
| allowed_display q :
    allowed Integrated _ (Display (viz g) q)
| allowed_sleep :
    allowed Redrawn _ (Sleep (rate g))
| allowed_before X (e : DemoE X) :
    loop_call e = false -> allowed Updating X e
| allowed_between X (e : DemoE X) :
    loop_call e = false -> allowed Integrated X e.

(** The phase after a call that returned. *)
Definition next (ph : Phase) {X} (e : DemoE X) : X -> Phase :=
  match e in DemoE X return X -> Phase with
  | SolveIk _ _ _ _ _ _ => fun velocity => Solved velocity
  | IntegrateInplace _ _ _ => fun _ => Integrated
  | Display _ _ => fun _ => Redrawn
  | Sleep _ => fun _ => Updating
  | _ => fun _ => ph
  end.

(** A trace follows the protocol from phase [ph]; a failed call ends it. *)
Fixpoint conforms (ph : Phase) (tr : list Entry) : Prop :=
  match tr with
  | [] => True
  | Called e x :: rest => allowed ph _ e /\ conforms (next ph e x) rest
  | Failed e _ :: rest => allowed ph _ e /\ rest = []
  end.

(** The target handed to [solve_ik] lies on the trajectory: with the clock
    at [t], component 1 of its translation is [0.7 sin(t / 2)] and
    component 2 is [0.2]; the clock advances by [dt] at each sleep. *)
Definition on_trajectory_at (t : R) (call : SolveIkCall) : Prop :=
  exists ee T rest,
    sc_tasks call = TFrame ee :: rest /\
    transform_target_to_world ee = Some T /\
    Pin.getitem (Pin.translation T) Pin.I1 = 0.7 * sin (t / 2) /\
    Pin.getitem (Pin.translation T) Pin.I2 = 0.2.

Fixpoint on_trajectory (t0 : R) (n : nat) (tr : list Entry) : Prop :=
  match tr with
  | [] => True
  | en :: rest =>
      match entry_solve_ik en with
      | Some call => on_trajectory_at (t0 + INR n * dt g) call
      | None => True
      end /\
      on_trajectory t0 (if slept en then S n else n) rest
  end.

End Protocol.

(** *** How a run can end in an exception *)

(** The failure reported by the guarded import, if the trace has one. *)
Definition guarded_failure (en : Entry) : option Exception :=
  match en with
  | Called e x =>
      match e in DemoE X return X -> option Exception with
      | ImportGuarded _ => fun failure => failure
      | _ => fun _ => None
      end x
  | Failed _ _ => None
  end.

Fixpoint import_failure (tr : list Entry) : option Exception :=
  match tr with
  | [] => None
  | en :: rest =>
      match guarded_failure en with
      | Some cause => Some cause
      | None => import_failure rest
      end
  end.

(** The last entry of the trace is a failed call that satisfies [P]. *)
Inductive ends_in (P : forall X, DemoE X -> Exception -> Prop) : list Entry -> Prop :=
| ends_here X (e : DemoE X) exc : P X e exc -> ends_in P [Failed e exc]
| ends_later en tr : ends_in P tr -> ends_in P (en :: tr).

(** An exception that no code of the script made: a call into a library
    raised it, or Python did on an index or attribute the script used. *)
Definition unhandled (exc : Exception) {X} (e : DemoE X) (exc' : Exception) : Prop :=
  exc' = exc /\
  (raised_by_script e = None \/
   exc_type exc = "IndexError" \/ exc_type exc = "AttributeError").

(* ------------------------------------------------------------------- *)
(** *** Facts about the runner *)
(* ------------------------------------------------------------------- *)

Section RunFacts.
Variable World : Type.
Variable respond : World -> forall X, DemoE X -> (Exception + X) * World.

(** The runner sees a script only through its calls: strongly bisimilar
    scripts run alike. *)
Lemma run_eq_itree {A} (fuel : nat) : forall (w : World) (p q : itree DemoE A),
  p ≅ q -> run World respond fuel w p = run World respond fuel w q.
Proof.
  induction fuel as [|fuel IH]; intros w p q Hpq; [reflexivity|].
  apply eqit_inv in Hpq. cbn in *. unfold observe in *.
  destruct (_observe p) as [a|p'|X e k], (_observe q) as [b|q'|Y e' k'];
    cbn in Hpq; try contradiction; try discriminate.
  - now subst.
  - now apply IH.
  - destruct Hpq as [eqXY [He Hk]]. destruct eqXY. cbn in He, Hk. subst e'.
    destruct (raised_by_script e); [reflexivity|].
    destruct (respond w X e) as [[exc|x] w']; [reflexivity|].
    now rewrite (IH w' (k x) (k' x) (Hk x)).
Qed.

(** Outcome of a script that is followed by more code and never returns. *)
Definition carry {A B} (o : Outcome A) : Outcome B :=
  match o with
  | Raised exc => Raised exc
  | _ => Running
  end.

Lemma run_bind_diverging {A B} (k : A -> itree DemoE B) (fuel : nat) :
  forall (w : World) (p : itree DemoE A),
  (forall fuel', returned (snd (run World respond fuel' w p)) = false) ->
  run World respond fuel w (ITree.bind p k) = (fst (run World respond fuel w p), carry (snd (run World respond fuel w p))).
Proof.
  induction fuel as [|fuel IH]; intros w p Hp; [reflexivity|].
  rewrite (run_eq_itree _ _ _ _ (unfold_bind p k)).
  pose proof (Hp 1%nat) as H1. cbn in H1 |- *.
  destruct (observe p) as [a|p'|X e h] eqn:Hobs; cbn in *.
  - discriminate.
  - apply IH. intros fuel'. specialize (Hp (S fuel')). cbn in Hp.
    now rewrite Hobs in Hp.
  - destruct (raised_by_script e) eqn:Hraise; [reflexivity|].
    destruct (respond w X e) as [[exc|x] w'] eqn:Hans; [reflexivity|].
    rewrite IH; [reflexivity|].
    intros fuel'. specialize (Hp (S fuel')). cbn in Hp.
    now rewrite Hobs, Hraise, Hans in Hp.
Qed.

(** One turn of [while True]: the body, then back to the test. *)
Lemma run_control_loop g fuel w s :
  run World respond fuel w (control_loop g s) =
  run World respond fuel w (s' <- loop_body g s ;; Tau (control_loop g s')).
Proof.
  apply run_eq_itree. unfold control_loop, while.
  rewrite unfold_iter. cbn. rewrite bind_bind.
  apply eqit_bind; [reflexivity|]. intros s'. rewrite bind_ret_l. reflexivity.
Qed.

Ltac burn :=
  match goal with
  | |- context [run _ _ ?f _ _] => is_var f; destruct f; cbn
  end.
Ltac answer :=
  match goal with
  | |- context [respond ?w ?X ?e] =>
      let exc := fresh "exc" in let x := fresh "x" in let w' := fresh "w" in
      destruct (respond w X e) as [[exc|x] w']; cbn
  end.
(** One call: no fuel left, the call fails, or it returns. *)
Ltac one_call tac := burn; [solve [tac] | answer; [solve [tac] | ]].
Ltac barrier_value :=
  match goal with x : list R |- _ => destruct x as [|? ?]; cbn end.
Ltac enter_loop s :=
  rewrite run_control_loop; unfold loop_body;
  destruct (transform_target_to_world (ee_task s)) as [?T|];
  [ | burn; cbn ].

Lemma control_loop_never_returns g fuel : forall w s,
  returned (snd (run World respond fuel w (control_loop g s))) = false.
Proof.
  induction fuel as [fuel IH] using lt_wf_ind. intros w s.
  enter_loop s; try reflexivity.
  do 9 one_call ltac:(reflexivity). barrier_value; [burn; reflexivity|].
  do 9 one_call ltac:(reflexivity). burn; [reflexivity|]. apply IH. lia.
Qed.

Create HintDb protocol.
#[local] Hint Constructors allowed : protocol.

Lemma control_loop_on_trajectory g fuel : forall w s t0 n,
  t s = t0 + INR n * dt g ->
  on_trajectory g t0 n (fst (run World respond fuel w (control_loop g s))).
Proof.
  induction fuel as [fuel IH] using lt_wf_ind. intros w s t0 n Ht.
  enter_loop s; try solve [cbn; auto].
  do 3 (one_call ltac:(cbn; auto); split; [exact I|]).
  assert (Hat : forall tasks' c d sol cbfs lim,
             on_trajectory_at (t0 + INR n * dt g)
               (MkSolveIkCall c (TFrame (with_target (ee_task s) (update_target T (t s)))
                                   :: tasks') d sol cbfs lim)).
  { intros. exists (with_target (ee_task s) (update_target T (t s))), (update_target T (t s)), tasks'.
    cbn. rewrite Ht. repeat split; lra. }
  one_call ltac:(cbn; auto). split; [apply Hat|].
  do 5 (one_call ltac:(cbn; auto); split; [exact I|]).
  barrier_value; [burn; cbn; auto|].
  do 9 (one_call ltac:(cbn; auto); split; [exact I|]).
  burn; [exact I|]. apply IH; [lia|]. rewrite S_INR. cbn. rewrite Ht. lra.
Qed.

(** What every call of [solve_ik] in the loop is given. *)
Definition loop_arguments (g : Vars) (call : SolveIkCall) : Prop :=
  sc_configuration call = configuration g /\
  length (sc_tasks call) = 2%nat /\
  sc_dt call = dt g /\
  sc_solver call = solver g /\
  sc_cbfs call = cbf_list (robot g) /\
  sc_use_position_limit call = false.

Lemma control_loop_arguments g fuel : forall w s,
  every_solve_ik (loop_arguments g) (fst (run World respond fuel w (control_loop g s))).
Proof.
  induction fuel as [fuel IH] using lt_wf_ind. intros w s.
  assert (Hargs : forall ts, length ts = 2%nat ->
            loop_arguments g (MkSolveIkCall (configuration g) ts (dt g) (solver g)
                                          (cbf_list (robot g)) false)).
  { intros ts Hts. repeat split; auto. }
  enter_loop s; try solve [repeat constructor; auto].
  do 9 (one_call ltac:(repeat constructor; auto); constructor; [cbn; auto|]).
  barrier_value; [burn; repeat constructor|].
  do 9 (one_call ltac:(repeat constructor; auto); constructor; [cbn; auto|]).
  burn; [constructor|]. apply IH. lia.
Qed.

Lemma control_loop_progress g fuel : forall w s,
  match snd (run World respond fuel w (control_loop g s)) with
  | Running =>
      completed_iterations (fst (run World respond fuel w (control_loop g s)))
        * iteration_steps <= fuel + 1 <
      completed_iterations (fst (run World respond fuel w (control_loop g s)))
        * iteration_steps + iteration_steps
  | Raised _ =>
      completed_iterations (fst (run World respond fuel w (control_loop g s)))
        * iteration_steps < fuel
  | Returned _ => False
  end%nat.
Proof.
  unfold iteration_steps, completed_iterations.
  induction fuel as [fuel IH] using lt_wf_ind. intros w s.
  enter_loop s; try (cbn; lia).
  do 9 (one_call ltac:(cbn; lia)).
  barrier_value; [burn; cbn; lia|].
  do 9 (one_call ltac:(cbn; lia)).
  burn; [cbn; lia|].
  match goal with
  | |- context [run World respond ?f ?w' (control_loop ?g' ?s')] =>
      specialize (IH f ltac:(lia) w' s');
      destruct (run World respond f w' (control_loop g' s')) as [tr [|a|exc]]
  end; cbn in *; lia.
Qed.

(** The failed call that ends a trace sits at its end, however long the
    trace before it. *)
Ltac at_the_end :=
  repeat (first [ apply ends_here; split; auto | apply ends_later ]).

Ltac failed_here :=
  cbn; first [ discriminate | intros [= <-]; intros; at_the_end ].

Lemma control_loop_ends_in g fuel : forall w s exc,
  snd (run World respond fuel w (control_loop g s)) = Raised exc ->
  ends_in (@unhandled exc) (fst (run World respond fuel w (control_loop g s))).
Proof.
  induction fuel as [fuel IH] using lt_wf_ind. intros w s exc.
  enter_loop s; try solve [failed_here].
  do 9 (one_call ltac:(failed_here)).
  barrier_value; [burn; failed_here|].
  do 9 (one_call ltac:(failed_here)).
  burn; [discriminate|]. intros H. apply IH in H; [|lia].
  repeat apply ends_later. exact H.
Qed.

Lemma control_loop_no_import g fuel : forall w s,
  import_failure (fst (run World respond fuel w (control_loop g s))) = None.
Proof.
  induction fuel as [fuel IH] using lt_wf_ind. intros w s.
  enter_loop s; try reflexivity.
  do 9 (one_call ltac:(reflexivity)).
  barrier_value; [burn; reflexivity|].
  do 9 (one_call ltac:(reflexivity)).
  burn; [reflexivity|]. apply IH. lia.
Qed.

(** A completed step [Ret x] hands [x] to the code that follows. *)
Lemma run_ret_bind {A B} (x : A) (k : A -> itree DemoE B) fuel w :
  run World respond fuel w (ITree.bind (Ret x) k) = run World respond fuel w (k x).
Proof. apply run_eq_itree, bind_ret_l. Qed.

(** Code after the loop is never reached. *)
Lemma run_control_loop_bind {B} g s (k : LoopState -> itree DemoE B) fuel w :
  run World respond fuel w (ITree.bind (control_loop g s) k) =
  (fst (run World respond fuel w (control_loop g s)),
   carry (snd (run World respond fuel w (control_loop g s)))).
Proof.
  apply run_bind_diverging. intros fuel'. apply control_loop_never_returns.
Qed.

Ltac into_loop :=
  change (ITree.subst ?k ?p) with (ITree.bind p k);
  rewrite run_ret_bind, run_control_loop_bind; cbn [fst snd].

(** What every call of [solve_ik] of the whole script is given. *)
Definition script_arguments (call : SolveIkCall) : Prop :=
  select_solver available_solvers = Some (sc_solver call) /\
  sc_use_position_limit call = false /\
  exists robot, sc_cbfs call = cbf_list robot.

(** The guard around the import: the import failed, or it did not. *)
Ltac import_guard tac :=
  match goal with x : option Exception |- _ => destruct x as [?cause|] end;
  [ burn; solve [tac] | ].

Lemma script_solve_ik_calls fuel w name :
  every_solve_ik script_arguments (fst (run World respond fuel w (script name))).
Proof.
  unfold script, imports, main.
  destruct (String.eqb name "__main__");
    destruct (select_solver available_solvers) as [chosen|] eqn:Hsel;
    do 10 (one_call ltac:(repeat constructor); constructor; [exact I|]);
    import_guard ltac:(repeat constructor);
    try solve [burn; repeat constructor].
  - do 8 (one_call ltac:(repeat constructor); constructor; [exact I|]).
    one_call ltac:(repeat constructor); constructor; [exact I|].
    into_loop. eapply Forall_impl; [|apply control_loop_arguments].
    intros en. cbv beta. destruct (entry_solve_ik en) as [call|]; [|trivial].
    intros (_ & _ & _ & Hsolver & Hcbfs & Hlimit). cbn in Hsolver, Hcbfs.
    repeat split; [congruence | assumption | eauto].
  - do 8 (one_call ltac:(repeat constructor); constructor; [exact I|]).
    burn; repeat constructor.
Qed.

(** The trace records a failure of the guarded import only if that import
    was the last call the script made. *)
Lemma script_import_failure fuel w name cause :
  import_failure (fst (run World respond fuel w (script name))) = Some cause ->
  snd (run World respond fuel w (script name))
    = Raised (except_ModuleNotFoundError cause) \/
  snd (run World respond fuel w (script name)) = Running /\ fuel = 10%nat.
Proof.
  unfold script, imports, main.
  destruct (String.eqb name "__main__");
    destruct (select_solver available_solvers) as [chosen|] eqn:Hsel;
    do 10 (one_call ltac:(discriminate));
    (match goal with x : option Exception |- _ => destruct x as [failure|] end;
     [ burn; intros Hsame; injection Hsame as <-; auto | ]);
    try solve [burn; discriminate].
  - do 9 (one_call ltac:(discriminate)).
    into_loop. now rewrite control_loop_no_import.
  - do 8 (one_call ltac:(discriminate)). burn; discriminate.
Qed.

(** Apart from the guard, an exception that ends the script is one the
    script did not make. *)
Lemma script_ends_in fuel w name exc :
  snd (run World respond fuel w (script name)) = Raised exc ->
  import_failure (fst (run World respond fuel w (script name))) = None ->
  ends_in (@unhandled exc) (fst (run World respond fuel w (script name))).
Proof.
  unfold script, imports, main.
  destruct (String.eqb name "__main__");
    destruct (select_solver available_solvers) as [chosen|] eqn:Hsel;
    do 10 (one_call ltac:(failed_here));
    (match goal with x : option Exception |- _ => destruct x as [failure|] end;
     [ burn; discriminate | ]);
    try solve [burn; failed_here].
  - do 9 (one_call ltac:(failed_here)).
    into_loop. intros Hraised _.
    repeat apply ends_later. apply control_loop_ends_in.
    destruct (snd (run World respond fuel _ (control_loop _ _)));
      cbn in Hraised; congruence.
  - do 8 (one_call ltac:(failed_here)). burn; failed_here.
Qed.

(* ------------------------------------------------------------------- *)
(** *** The control loop *)
(* ------------------------------------------------------------------- *)

Lemma control_loop_conforms g fuel : forall w s,
  conforms g Updating (fst (run World respond fuel w (control_loop g s))).
Proof.
  induction fuel as [fuel IH] using lt_wf_ind. intros w s.
  enter_loop s; try solve [cbn; auto with protocol].
  do 9 (one_call ltac:(cbn; auto with protocol); split; [solve [auto with protocol]|]).
  barrier_value; [burn; cbn; auto with protocol|].
  do 9 (one_call ltac:(cbn; auto with protocol); split; [solve [auto with protocol]|]).
  burn; [exact I|]. apply IH. lia.
Qed.

(** An iteration is complete only after its [solve_ik] and its
    [integrate_inplace] have returned. *)
Lemma control_loop_integrates_each_iteration g fuel : forall w s,
  (completed_iterations (fst (run World respond fuel w (control_loop g s)))
   <= count (@is_integrate) (fst (run World respond fuel w (control_loop g s))))%nat /\
  (count (@is_integrate) (fst (run World respond fuel w (control_loop g s)))
   <= count (@is_solve_ik) (fst (run World respond fuel w (control_loop g s))))%nat.
Proof.
  unfold count, completed_iterations.
  induction fuel as [fuel IH] using lt_wf_ind. intros w s.
  enter_loop s; try solve [cbn; lia].
  do 9 (one_call ltac:(cbn; lia)).
  barrier_value; [burn; cbn; lia|].
  do 9 (one_call ltac:(cbn; lia)).
  burn; [cbn; lia|].
  match goal with
  | |- context [run World respond ?f ?w' (control_loop ?g' ?s')] =>
      specialize (IH f ltac:(lia) w' s')
  end.
  cbn in IH |- *. lia.
Qed.


(** C6: at every call of [solve_ik] the target of the end-effector task has
    been recomputed from the clock: with [t] the value of the clock on
    entry and [n] sleeps since, its translation has [0.7 sin((t + n dt)/2)]
    at index 1 and [0.2] at index 2. *)
Theorem control_loop_target_on_trajectory g fuel w s :
  on_trajectory g (t s) 0 (fst (run World respond fuel w (control_loop g s))).
Proof. apply control_loop_on_trajectory. cbn. lra. Qed.

(** C8: the loop never returns, whatever the libraries answer; as long as
    no call raises, [n] rounds of fuel complete exactly [n] iterations and
    leave the loop running. *)
Theorem control_loop_runs_forever g w s :
  (forall fuel, returned (snd (run World respond fuel w (control_loop g s))) = false) /\
  (forall n,
     match snd (run World respond (n * iteration_steps) w (control_loop g s)) with
     | Running =>
         completed_iterations
           (fst (run World respond (n * iteration_steps) w (control_loop g s))) = n
     | Raised _ =>
         (completed_iterations
            (fst (run World respond (n * iteration_steps) w (control_loop g s))) < n)%nat
     | Returned _ => False
     end).
Proof.
  split; [intros fuel; apply control_loop_never_returns|].
  intros n. pose proof (control_loop_progress g (n * iteration_steps) w s) as H.
  unfold iteration_steps in *.
  destruct (snd (run World respond (n * 19) w (control_loop g s))); [lia|exact H|lia].
Qed.

(* ------------------------------------------------------------------- *)
(** *** The whole script *)
(* ------------------------------------------------------------------- *)

Lemma str_in_In x xs : str_in x xs = true <-> In x xs.
Proof.
  induction xs as [|y ys IH]; cbn; [split; [discriminate|contradiction]|].
  rewrite orb_true_iff, String.eqb_eq, IH. reflexivity.
Qed.

(** C9: the solver is ["osqp"] exactly when ["osqp"] is among the available
    solvers, and the first available solver otherwise; every call of
    [solve_ik] is given that selection. *)
Theorem solver_selected_once :
  (forall available,
     match select_solver available with
     | Some chosen =>
         (chosen = "osqp" <-> In "osqp" available) /\
         (~ In "osqp" available -> hd_error available = Some chosen)
     | None => available = []
     end) /\
  (forall fuel w name,
     every_solve_ik
       (fun call => select_solver available_solvers = Some (sc_solver call))
       (fst (run World respond fuel w (script name)))).
Proof.
  split.
  - intros [|first rest]; [reflexivity|]. unfold select_solver.
    destruct (str_in "osqp" (first :: rest)) eqn:Hin.
    + apply str_in_In in Hin. split; [tauto|contradiction].
    + assert (Hnot : ~ In "osqp" (first :: rest)).
      { intros H. apply str_in_In in H. congruence. }
      split; [|reflexivity]. split; [|contradiction].
      intros ->. exfalso. apply Hnot. now left.
  - intros fuel w name. eapply Forall_impl; [|apply script_solve_ik_calls].
    intros en. cbv beta. destruct (entry_solve_ik en); [|trivial]. now intros [H _].
Qed.

(** C10: every call of [solve_ik] has [use_position_limit=False] and gets
    the list of the two barriers, one of them the configuration barrier. *)
Theorem position_limit_disabled fuel w name :
  every_solve_ik
    (fun call =>
       sc_use_position_limit call = false /\
       length (sc_cbfs call) = 2%nat /\
       existsb is_configuration_barrier (sc_cbfs call) = true)
    (fst (run World respond fuel w (script name))).
Proof.
  eapply Forall_impl; [|apply script_solve_ik_calls].
  intros en. cbv beta. destruct (entry_solve_ik en); [|trivial].
  intros (_ & Hlimit & robot & ->). auto.
Qed.

(** C7: when the guarded import fails with a [ModuleNotFoundError], the
    script ends in a new [ModuleNotFoundError] whose message holds the
    install hint and whose cause is the original; every other exception
    that ends the script was made by no code of the script. *)
Theorem import_guard_translates fuel w name cause :
  (10 < fuel)%nat ->
  import_failure (fst (run World respond fuel w (script name))) = Some cause ->
  exc_type cause = "ModuleNotFoundError" ->
  snd (run World respond fuel w (script name))
    = Raised (ExcFrom "ModuleNotFoundError" hint cause) /\
  exc_cause (ExcFrom "ModuleNotFoundError" hint cause) = Some cause /\
  contains "pip install robot_descriptions" hint = true /\
  (forall fuel' w' name' exc,
     snd (run World respond fuel' w' (script name')) = Raised exc ->
     import_failure (fst (run World respond fuel' w' (script name'))) = None ->
     ends_in (@unhandled exc) (fst (run World respond fuel' w' (script name')))).
Proof.
  intros Hfuel Hfailed Hclass. repeat split.
  - destruct (script_import_failure _ _ _ _ Hfailed) as [H|[_ H]]; [|lia].
    rewrite H. unfold except_ModuleNotFoundError, isinstance.
    rewrite Hclass. reflexivity.
  - intros fuel' w' name' exc. apply script_ends_in.
Qed.


(* ------------------------------------------------------------------- *)
(** *** More about the loop *)
(* ------------------------------------------------------------------- *)

(** The end-effector task handed to [solve_ik], if the call is one. *)
Definition solved_task (call : SolveIkCall) : option FrameTask :=
  match sc_tasks call with
  | TFrame ee :: _ => Some ee
  | _ => None
  end.

(** All of [task] but two coordinates of its target: the frame, the costs,
    and of the target pose [T0] the rotation and coordinate 0. *)
Definition same_but_target_yz (task : FrameTask) (T0 : Pin.SE3) (call : SolveIkCall)
  : Prop :=
  exists ee T,
    solved_task call = Some ee /\
    transform_target_to_world ee = Some T /\
    frame ee = frame task /\
    position_cost ee = position_cost task /\
    orientation_cost ee = orientation_cost task /\
    lm_damping ee = lm_damping task /\
    Pin.rotation T = Pin.rotation T0 /\
    Pin.getitem (Pin.translation T) Pin.I0 = Pin.getitem (Pin.translation T0) Pin.I0.

(** X1: the loop moves its target along two axes only: whatever the task and the
    pose it starts from, every [solve_ik] gets that task with the rotation
    and the first coordinate of that pose; started without a target, the
    loop never reaches [solve_ik]. *)
Theorem control_loop_keeps_rest_of_target g fuel : forall w s,
  every_solve_ik
    (fun call =>
       match transform_target_to_world (ee_task s) with
       | Some T0 => same_but_target_yz (ee_task s) T0 call
       | None => False
       end)
    (fst (run World respond fuel w (control_loop g s))).
Proof.
  induction fuel as [fuel IH] using lt_wf_ind. intros w s.
  rewrite run_control_loop. unfold loop_body.
  destruct (transform_target_to_world (ee_task s)) as [T0|] eqn:Htarget;
    [|burn; repeat constructor].
  do 3 (one_call ltac:(repeat constructor); constructor; [exact I|]).
  one_call ltac:(repeat constructor; cbn; eexists _, _; cbn; repeat split).
  constructor; [cbn; eexists _, _; cbn; repeat split|].
  do 5 (one_call ltac:(repeat constructor); constructor; [exact I|]).
  barrier_value; [burn; repeat constructor|].
  do 9 (one_call ltac:(repeat constructor); constructor; [exact I|]).
  burn; [constructor|].
  eapply Forall_impl; [|apply IH; lia]. intros en. cbn.
  destruct (entry_solve_ik en) as [call|]; [|trivial].
  intros (ee & T & ? & ? & ? & ? & ? & ? & ? & ?). exists ee, T.
  repeat split; try assumption; congruence.
Qed.

(** The matrix last sent to the viewer at ["end_effector_target"]. *)
Definition shown_target (last : option Np.Matrix) (en : Entry) : option Np.Matrix :=
  match en with
  | Called e _ | Failed e _ =>
      match e with
      | SetTransform _ path M =>
          if String.eqb path "end_effector_target" then Some M else last
      | _ => last
      end
  end.

(** At each [solve_ik] the viewer has been sent the pose that the solver
    is given as target. *)
Fixpoint shows_what_it_solves (last : option Np.Matrix) (tr : list Entry) : Prop :=
  match tr with
  | [] => True
  | en :: rest =>
      match entry_solve_ik en with
      | Some call =>
          exists ee T,
            solved_task call = Some ee /\
            transform_target_to_world ee = Some T /\
            last = Some (Pin.np T)
      | None => True
      end /\
      shows_what_it_solves (shown_target last en) rest
  end.

(** X2: the target drawn in the viewer and the target of the solver are the
    same pose in every iteration, though the list of tasks was built before
    the loop: the task in the list is the object the loop mutates. *)
Theorem control_loop_shows_what_it_solves g fuel : forall w s last,
  shows_what_it_solves last (fst (run World respond fuel w (control_loop g s))).
Proof.
  induction fuel as [fuel IH] using lt_wf_ind. intros w s last.
  enter_loop s; try solve [cbn; auto].
  do 3 (one_call ltac:(cbn; auto); split; [exact I|]).
  one_call ltac:(cbn; first [exact I | split; [eexists _, _; cbn; repeat split|auto]]).
  split; [cbn; eexists _, _; cbn; repeat split|].
  do 5 (one_call ltac:(cbn; auto); split; [exact I|]).
  barrier_value; [burn; cbn; auto|].
  do 9 (one_call ltac:(cbn; auto); split; [exact I|]).
  burn; [exact I|]. apply IH. lia.
Qed.

(** The calls behind the printed lines: the inequality of the position
    barrier, the task error, the barrier values and [print] itself. *)
Definition diagnostic {X} (e : DemoE X) : bool :=
  match e with
  | ComputeQpInequality _ _ _ | FrameTask_compute_error _ _
  | ComputeBarrier _ _ | Print _ => true
  | _ => false
  end.

Definition phase_eqb (p q : Phase) : bool :=
  match p, q with
  | Updating, Updating | Integrated, Integrated | Redrawn, Redrawn => true
  | _, _ => false
  end.

(** Diagnostics are made in phase [Integrated] only. *)
Fixpoint reports_after_integration (g : Vars) (ph : Phase) (tr : list Entry) : Prop :=
  match tr with
  | [] => True
  | Called e x :: rest =>
      (diagnostic e = true -> phase_eqb ph Integrated = true) /\
      reports_after_integration g (next ph e x) rest
  | Failed e _ :: rest =>
      diagnostic e = true -> phase_eqb ph Integrated = true
  end.

(** X3: what the loop prints is measured after the step: the task error, the
    barrier values and the inequality are computed, and the lines printed,
    only between [integrate_inplace] and the redraw, never before
    [solve_ik]. *)
Theorem control_loop_reports_after_integration g fuel : forall w s,
  reports_after_integration g Updating
    (fst (run World respond fuel w (control_loop g s))).
Proof.
  induction fuel as [fuel IH] using lt_wf_ind. intros w s.
  enter_loop s; try solve [cbn; auto; discriminate].
  do 9 (one_call ltac:(cbn; auto; discriminate); split; [cbn; auto; discriminate|]).
  barrier_value; [burn; cbn; auto; discriminate|].
  do 9 (one_call ltac:(cbn; auto; discriminate); split; [cbn; auto; discriminate|]).
  burn; [exact I|]. apply IH. lia.
Qed.

(** X4: one of each per iteration: at any moment the loop has solved at most
    once more than it has slept, integration, redraw and sleep follow in
    that order, and five lines are printed in each completed iteration. *)
Theorem control_loop_once_per_iteration g fuel : forall w s,
  let tr := fst (run World respond fuel w (control_loop g s)) in
  (count (@is_sleep) tr <= count (@is_display) tr)%nat /\
  (count (@is_display) tr <= count (@is_integrate) tr)%nat /\
  (count (@is_integrate) tr <= count (@is_solve_ik) tr)%nat /\
  (count (@is_solve_ik) tr <= count (@is_sleep) tr + 1)%nat /\
  (5 * count (@is_sleep) tr <= count (@is_print) tr
     <= 5 * count (@is_sleep) tr + 5)%nat.
Proof.
  unfold count.
  induction fuel as [fuel IH] using lt_wf_ind. intros w s.
  enter_loop s; try solve [cbn; lia].
  do 9 (one_call ltac:(cbn; lia)).
  barrier_value; [burn; cbn; lia|].
  do 9 (one_call ltac:(cbn; lia)).
  burn; [cbn; lia|].
  match goal with
  | |- context [run World respond ?f ?w' (control_loop ?g' ?s')] =>
      specialize (IH f ltac:(lia) w' s')
  end.
  cbn in IH |- *. lia.
Qed.

(* ------------------------------------------------------------------- *)
(** *** More about the whole script *)
(* ------------------------------------------------------------------- *)

(** The exception of a [raise] of the script. *)
Definition script_raise (en : Entry) : option Exception :=
  match en with
  | Failed e _ => raised_by_script e
  | Called _ _ => None
  end.

Definition never_raises (ty : string) (tr : list Entry) : Prop :=
  Forall (fun en => match script_raise en with
                    | Some exc => String.eqb (exc_type exc) ty = false
                    | None => True
                    end) tr.

Lemma control_loop_has_target g fuel : forall w s T,
  transform_target_to_world (ee_task s) = Some T ->
  never_raises "AttributeError" (fst (run World respond fuel w (control_loop g s))).
Proof.
  unfold never_raises.
  induction fuel as [fuel IH] using lt_wf_ind. intros w s T Htarget.
  rewrite run_control_loop. unfold loop_body. rewrite Htarget.
  do 9 (one_call ltac:(repeat constructor); constructor; [exact I|]).
  barrier_value; [burn; repeat constructor|].
  do 9 (one_call ltac:(repeat constructor); constructor; [exact I|]).
  burn; [constructor|]. eapply IH; [lia|reflexivity].
Qed.

(** X5: the loop never fails for want of a target: both tasks are given their
    target before it starts, so unless the guarded import failed, the
    script raises no [AttributeError] of its own. *)
Theorem script_sets_target_before_loop fuel w name :
  import_failure (fst (run World respond fuel w (script name))) = None ->
  never_raises "AttributeError" (fst (run World respond fuel w (script name))).
Proof.
  unfold never_raises, script, imports, main.
  destruct (String.eqb name "__main__");
    destruct (select_solver available_solvers) as [chosen|] eqn:Hsel;
    do 10 (one_call ltac:(repeat constructor); intros Hnone; constructor;
           [exact I|revert Hnone]);
    (match goal with x : option Exception |- _ => destruct x as [failure|] end;
     [ burn; discriminate | ]);
    try solve [burn; repeat constructor].
  - do 9 (one_call ltac:(repeat constructor); intros Hnone; constructor;
          [exact I|revert Hnone]).
    into_loop. intros _. eapply control_loop_has_target. reflexivity.
  - do 8 (one_call ltac:(repeat constructor); intros Hnone; constructor;
          [exact I|revert Hnone]).
    burn; repeat constructor.
Qed.

Definition is_import {X} (e : DemoE X) : bool :=
  match e with
  | Import _ | ImportGuarded _ | Raise _ => true
  | _ => false
  end.

Definition running {A} (o : Outcome A) : bool :=
  match o with Running => true | _ => false end.

(** X6: imported as a module, the script only imports: every step is one
    of its imports or the guard's [raise], there are at most eleven, and
    after eleven steps it is done; no robot is loaded, no viewer started. *)
Theorem script_imported_only_imports fuel w name :
  String.eqb name "__main__" = false ->
  Forall (fun en => match en with
                    | Called e _ | Failed e _ => is_import e = true
                    end)
         (fst (run World respond fuel w (script name))) /\
  (length (fst (run World respond fuel w (script name))) <= 11)%nat /\
  ((10 < fuel)%nat -> running (snd (run World respond fuel w (script name))) = false).
Proof.
  intros Hname. unfold script, imports. rewrite Hname.
  do 10 (one_call ltac:(cbn; repeat split; try lia; repeat constructor)).
  match goal with x : option Exception |- _ => destruct x as [failure|] end;
    burn; cbn; repeat split; try lia; repeat constructor.
Qed.

(** X7: an import failure that is no instance of [ModuleNotFoundError],
    its class being neither that class nor a subclass of it, is not
    translated: it ends the script as it is, with no hint and no cause
    added. *)
Theorem import_guard_lets_others_through fuel w name cause :
  (10 < fuel)%nat ->
  import_failure (fst (run World respond fuel w (script name))) = Some cause ->
  isinstance ancestors cause "ModuleNotFoundError" = false ->
  snd (run World respond fuel w (script name)) = Raised cause.
Proof.
  intros Hfuel Hfailed Hclass.
  destruct (script_import_failure _ _ _ _ Hfailed) as [H|[_ H]]; [|lia].
  rewrite H. unfold except_ModuleNotFoundError. now rewrite Hclass.
Qed.

(** X11: the guard catches subclasses as well: a failure of the guarded
    import that is an instance of [ModuleNotFoundError], of that class or
    of one that inherits from it, is translated into a
    [ModuleNotFoundError] with the install hint, chained from the failure. *)
Theorem import_guard_translates_subclasses fuel w name cause :
  (10 < fuel)%nat ->
  import_failure (fst (run World respond fuel w (script name))) = Some cause ->
  isinstance ancestors cause "ModuleNotFoundError" = true ->
  snd (run World respond fuel w (script name))
    = Raised (ExcFrom "ModuleNotFoundError" hint cause).
Proof.
  intros Hfuel Hfailed Hclass.
  destruct (script_import_failure _ _ _ _ Hfailed) as [H|[_ H]]; [|lia].
  rewrite H. unfold except_ModuleNotFoundError. now rewrite Hclass.
Qed.

Definition is_rate_limiter {X} (e : DemoE X) : bool :=
  match e with NewRateLimiter _ => true | _ => false end.

(** X8: with no solver available the script stops before the loop: no rate
    limiter is made, [solve_ik] is never called, after nineteen steps
    nothing runs any more, and the one exception the script can raise
    itself past the import guard is the [IndexError] of
    [available_solvers[0]]. *)
Theorem no_solver_no_loop fuel w name :
  available_solvers = [] ->
  every_solve_ik (fun _ => False) (fst (run World respond fuel w (script name))) /\
  count (@is_rate_limiter) (fst (run World respond fuel w (script name))) = 0%nat /\
  ((18 < fuel)%nat -> running (snd (run World respond fuel w (script name))) = false) /\
  (forall exc,
     snd (run World respond fuel w (script name)) = Raised exc ->
     script_raise (last (fst (run World respond fuel w (script name)))
                        (Called (Import "numpy") tt)) = Some exc ->
     import_failure (fst (run World respond fuel w (script name))) = None ->
     exc = Exc "IndexError" "list index out of range").
Proof.
  intros Hnone. unfold script, imports, main, count. rewrite Hnone. cbn [select_solver].
  destruct (String.eqb name "__main__").
  - do 10 (one_call ltac:(cbn; repeat split; try lia; try discriminate;
                           repeat constructor; try congruence)).
    match goal with x : option Exception |- _ => destruct x as [failure|] end.
    { burn; cbn; repeat split; try lia; try discriminate; repeat constructor;
        congruence. }
    do 8 (one_call ltac:(cbn; repeat split; try lia; try discriminate;
                          repeat constructor; try congruence)).
    burn; cbn; repeat split; try lia; try discriminate; repeat constructor;
      congruence.
  - do 10 (one_call ltac:(cbn; repeat split; try lia; try discriminate;
                           repeat constructor; try congruence)).
    match goal with x : option Exception |- _ => destruct x as [failure|] end;
      burn; cbn; repeat split; try lia; try discriminate; repeat constructor;
      congruence.
Qed.

(** The period of a rate limiter that was just made. *)
Definition limiter_period (en : Entry) : option R :=
  match en with
  | Called e x =>
      match e in DemoE X return X -> option R with
      | NewRateLimiter _ => fun rate => Some (rate_period rate)
      | _ => fun _ => None
      end x
  | Failed _ _ => None
  end.

(** Every timestep handed to the library is the period of the limiter made
    before, and the limiter is made for 200 Hz. *)
Fixpoint paced_by_limiter (period : option R) (tr : list Entry) : Prop :=
  match tr with
  | [] => True
  | en :: rest =>
      match en with
      | Called e _ | Failed e _ =>
          match e with
          | NewRateLimiter frequency => frequency = 200.0
          | SolveIk _ _ d _ _ _ => period = Some d
          | IntegrateInplace _ _ d => period = Some d
          | ComputeQpInequality _ _ d => period = Some d
          | _ => True
          end
      end /\
      paced_by_limiter (match limiter_period en with
                        | Some p => Some p
                        | None => period
                        end) rest
  end.

Lemma control_loop_paced g fuel : forall w s,
  paced_by_limiter (Some (dt g)) (fst (run World respond fuel w (control_loop g s))).
Proof.
  induction fuel as [fuel IH] using lt_wf_ind. intros w s.
  enter_loop s; try solve [cbn; auto].
  do 9 (one_call ltac:(cbn; auto); split; [cbn; auto|]).
  barrier_value; [burn; cbn; auto|].
  do 9 (one_call ltac:(cbn; auto); split; [cbn; auto|]).
  burn; [exact I|]. apply IH. lia.
Qed.

(** X9: the loop is paced by its limiter: the one timestep given to [solve_ik],
    to [integrate_inplace] and to the barrier is the period of the 200 Hz
    rate limiter that the loop sleeps on, not a constant of its own. *)
Theorem script_paced_by_limiter fuel w name :
  paced_by_limiter None (fst (run World respond fuel w (script name))).
Proof.
  unfold script, imports, main.
  destruct (String.eqb name "__main__");
    destruct (select_solver available_solvers) as [chosen|] eqn:Hsel;
    do 10 (one_call ltac:(cbn; auto); split; [exact I|]);
    (match goal with x : option Exception |- _ => destruct x as [failure|] end;
     [ burn; cbn; auto | ]);
    try solve [burn; cbn; auto].
  - do 8 (one_call ltac:(cbn; auto); split; [exact I|]).
    one_call ltac:(cbn; auto). split; [reflexivity|].
    into_loop. apply (control_loop_paced (MkVars _ _ _ _ _)).
  - do 8 (one_call ltac:(cbn; auto); split; [exact I|]).
    burn; cbn; auto.
Qed.

Definition is_end_effector_task (n : TaskName) : bool :=
  match n with end_effector_task => true | posture_task_ => false end.

(** X10: [for task in tasks: task.set_target_from_configuration(configuration)]
    over any list of the two tasks: one call for each member, in order; when
    all have returned, the end-effector task has a target if it is in the
    list and is unchanged if it is not, and its frame and costs are as
    before in either case. *)
Theorem set_targets_once_each names : forall c ee fuel w,
  (length (fst (run World respond fuel w (set_targets names c ee)))
     <= length names)%nat /\
  forall ee',
    snd (run World respond fuel w (set_targets names c ee)) = Returned ee' ->
    length (fst (run World respond fuel w (set_targets names c ee))) = length names /\
    frame ee' = frame ee /\
    position_cost ee' = position_cost ee /\
    orientation_cost ee' = orientation_cost ee /\
    lm_damping ee' = lm_damping ee /\
    if existsb is_end_effector_task names
    then transform_target_to_world ee' <> None
    else transform_target_to_world ee' = transform_target_to_world ee.
Proof.
  induction names as [|name names IH]; intros c ee fuel w.
  - destruct fuel; cbn; split; try lia; intros ee'; [discriminate|].
    intros [= <-]. repeat split; reflexivity.
  - destruct name; cbn [set_targets];
      (destruct fuel; [cbn; split; [lia|discriminate]|]); cbn; answer;
      try (split; [lia|discriminate]);
      change (ITree.subst ?k ?p) with (ITree.bind p k); rewrite run_ret_bind.
    + specialize (IH c (MkFrameTask (frame ee) (position_cost ee)
                          (orientation_cost ee) (lm_damping ee) (Some x)) fuel w0).
      destruct IH as [Hlen Hret]. split; [lia|]. intros ee' Hee'.
      destruct (Hret ee' Hee') as (-> & -> & -> & -> & -> & Htarget). cbn.
      repeat split. destruct (existsb is_end_effector_task names);
        [assumption|rewrite Htarget; discriminate].
    + specialize (IH c ee fuel w0). destruct IH as [Hlen Hret].
      split; [lia|]. intros ee' Hee'.
      destruct (Hret ee' Hee') as (-> & Hrest). split; [reflexivity|exact Hrest].
Qed.

End RunFacts.

End Script.

Arguments Running {A}.
Arguments Returned {A}.
Arguments Raised {A}.

(* ------------------------------------------------------------------- *)
(** *** A run without [robot_descriptions] installed *)
(* ------------------------------------------------------------------- *)

(** What the interpreter raises when the package is missing. *)
Definition no_robot_descriptions : Exception :=
  Exc "ModuleNotFoundError" "No module named 'robot_descriptions'".

(** An environment in which every plain import succeeds and the guarded
    one fails; no other call is reached. *)
Definition missing_package (w : unit) (X : Type)
  (e : DemoE unit unit unit unit unit unit unit X) : (Exception + X) * unit :=
  match e in DemoE _ _ _ _ _ _ _ X return (Exception + X) * unit with
  | Import _ _ _ _ _ _ _ _ => (inr tt, w)
  | ImportGuarded _ _ _ _ _ _ _ _ => (inr (Some no_robot_descriptions), w)
  | _ => (inl (Exc "RuntimeError" "no such call in this run"), w)
  end.

Definition ur5_script : itree (DemoE unit unit unit unit unit unit unit) unit :=
  script unit unit unit unit unit unit unit
         (fun _ => tt) (fun _ => tt) (fun _ => tt) (fun _ => 0.005) ["osqp"]
         exception_classes "__main__".

Lemma import_guard_translates_witness :
  (10 < 11)%nat /\
  import_failure _ _ _ _ _ _ _ (fst (run _ _ _ _ _ _ _ unit missing_package 11 tt ur5_script))
    = Some no_robot_descriptions /\
  exc_type no_robot_descriptions = "ModuleNotFoundError" /\
  snd (run _ _ _ _ _ _ _ unit missing_package 11 tt ur5_script)
    = Raised (ExcFrom "ModuleNotFoundError" hint no_robot_descriptions).
Proof.
  assert (Hfuel : (10 < 11)%nat) by lia.
  assert (Hfailed :
    import_failure _ _ _ _ _ _ _
      (fst (run _ _ _ _ _ _ _ unit missing_package 11 tt ur5_script))
    = Some no_robot_descriptions) by reflexivity.
  assert (Hclass : exc_type no_robot_descriptions = "ModuleNotFoundError")
    by reflexivity.
  refine (conj Hfuel (conj Hfailed (conj Hclass _))).
  exact (proj1 (import_guard_translates _ _ _ _ _ _ _ _ _ _ _ _ _ unit missing_package
                  11 tt "__main__" no_robot_descriptions Hfuel Hfailed Hclass)).
Defined.


(* ------------------------------------------------------------------- *)
(** *** Runs with everything installed, and with a broken package *)
(* ------------------------------------------------------------------- *)

Definition rest_pose : Pin.SE3 :=
  Pin.MkSE3 (Pin.MkVector3 1 0 0, Pin.MkVector3 0 1 0, Pin.MkVector3 0 0 1)
            (Pin.MkVector3 0.4 0 0.2).

(** An environment in which every call succeeds: the robot rests, the
    solver answers the zero velocity and the barrier value is positive. *)
Definition installed (w : unit) (X : Type)
  (e : DemoE unit unit unit unit unit unit unit X) : (Exception + X) * unit :=
  match e in DemoE _ _ _ _ _ _ _ X return (Exception + X) * unit with
  | Import _ _ _ _ _ _ _ _ => (inr tt, w)
  | ImportGuarded _ _ _ _ _ _ _ _ => (inr None, w)
  | Raise _ _ _ _ _ _ _ exc => (inl exc, w)
  | LoadRobotDescription _ _ _ _ _ _ _ _ _ => (inr tt, w)
  | StartMeshcatVisualizer _ _ _ _ _ _ _ _ => (inr tt, w)
  | NewConfiguration _ _ _ _ _ _ _ _ _ _ => (inr tt, w)
  | FrameTask_set_target_from_configuration _ _ _ _ _ _ _ _ _ => (inr rest_pose, w)
  | PostureTask_set_target_from_configuration _ _ _ _ _ _ _ _ _ => (inr tt, w)
  | Configuration_q _ _ _ _ _ _ _ _ => (inr (Np.zeros 6), w)
  | Display _ _ _ _ _ _ _ _ _ => (inr tt, w)
  | MeshcatFrame _ _ _ _ _ _ _ _ _ _ => (inr tt, w)
  | NewRateLimiter _ _ _ _ _ _ _ _ => (inr tt, w)
  | SetTransform _ _ _ _ _ _ _ _ _ _ => (inr tt, w)
  | GetTransformFrameToWorld _ _ _ _ _ _ _ _ _ => (inr rest_pose, w)
  | SolveIk _ _ _ _ _ _ _ _ _ _ _ _ _ => (inr (Np.zeros 6), w)
  | IntegrateInplace _ _ _ _ _ _ _ _ _ _ => (inr tt, w)
  | ComputeQpInequality _ _ _ _ _ _ _ _ _ _ => (inr ([], []), w)
  | FrameTask_compute_error _ _ _ _ _ _ _ _ _ => (inr (Np.zeros 6), w)
  | ComputeBarrier _ _ _ _ _ _ _ _ _ => (inr [0.2], w)
  | Print _ _ _ _ _ _ _ _ => (inr tt, w)
  | Sleep _ _ _ _ _ _ _ _ => (inr tt, w)
  end.

(** What the interpreter raises when the package is there but its loader
    is not. *)
Definition no_loader : Exception :=
  Exc "ImportError"
      "cannot import name 'load_robot_description' from 'robot_descriptions.loaders.pinocchio'".

Definition broken_package (w : unit) (X : Type)
  (e : DemoE unit unit unit unit unit unit unit X) : (Exception + X) * unit :=
  match e in DemoE _ _ _ _ _ _ _ X return (Exception + X) * unit with
  | Import _ _ _ _ _ _ _ _ => (inr tt, w)
  | ImportGuarded _ _ _ _ _ _ _ _ => (inr (Some no_loader), w)
  | _ => (inl (Exc "RuntimeError" "no such call in this run"), w)
  end.

(** The same file imported as a module, and run where no solver is
    installed. *)
Definition ur5_module : itree (DemoE unit unit unit unit unit unit unit) unit :=
  script unit unit unit unit unit unit unit
         (fun _ => tt) (fun _ => tt) (fun _ => tt) (fun _ => 0.005) ["osqp"]
         exception_classes "arm_ur5".

Definition ur5_script_without_solver
  : itree (DemoE unit unit unit unit unit unit unit) unit :=
  script unit unit unit unit unit unit unit
         (fun _ => tt) (fun _ => tt) (fun _ => tt) (fun _ => 0.005) []
         exception_classes "__main__".

Lemma script_sets_target_before_loop_witness :
  import_failure _ _ _ _ _ _ _
    (fst (run _ _ _ _ _ _ _ unit installed 40 tt ur5_script)) = None /\
  never_raises _ _ _ _ _ _ _ "AttributeError"
    (fst (run _ _ _ _ _ _ _ unit installed 40 tt ur5_script)).
Proof.
  assert (Hnone :
    import_failure _ _ _ _ _ _ _
      (fst (run _ _ _ _ _ _ _ unit installed 40 tt ur5_script)) = None)
    by (vm_compute; reflexivity).
  refine (conj Hnone _).
  exact (script_sets_target_before_loop _ _ _ _ _ _ _ _ _ _ _ _ _ unit installed
           40 tt "__main__" Hnone).
Defined.

Lemma script_imported_only_imports_witness :
  String.eqb "arm_ur5" "__main__" = false /\
  Forall (fun en => match en with
                    | Called _ _ _ _ _ _ _ e _ | Failed _ _ _ _ _ _ _ e _ =>
                        is_import _ _ _ _ _ _ _ e = true
                    end)
         (fst (run _ _ _ _ _ _ _ unit installed 11 tt ur5_module)) /\
  (length (fst (run _ _ _ _ _ _ _ unit installed 11 tt ur5_module)) <= 11)%nat /\
  ((10 < 11)%nat ->
   running (snd (run _ _ _ _ _ _ _ unit installed 11 tt ur5_module)) = false).
Proof.
  assert (Hname : String.eqb "arm_ur5" "__main__" = false) by reflexivity.
  refine (conj Hname _).
  exact (script_imported_only_imports _ _ _ _ _ _ _ _ _ _ _ _ _ unit installed
           11 tt "arm_ur5" Hname).
Defined.

Lemma import_guard_lets_others_through_witness :
  (10 < 11)%nat /\
  import_failure _ _ _ _ _ _ _
    (fst (run _ _ _ _ _ _ _ unit broken_package 11 tt ur5_script)) = Some no_loader /\
  isinstance exception_classes no_loader "ModuleNotFoundError" = false /\
  snd (run _ _ _ _ _ _ _ unit broken_package 11 tt ur5_script) = Raised no_loader.
Proof.
  assert (Hfuel : (10 < 11)%nat) by lia.
  assert (Hfailed :
    import_failure _ _ _ _ _ _ _
      (fst (run _ _ _ _ _ _ _ unit broken_package 11 tt ur5_script))
    = Some no_loader) by reflexivity.
  assert (Hclass : isinstance exception_classes no_loader "ModuleNotFoundError" = false)
    by reflexivity.
  refine (conj Hfuel (conj Hfailed (conj Hclass _))).
  exact (import_guard_lets_others_through _ _ _ _ _ _ _ _ _ _ _ _ _ unit broken_package
           11 tt "__main__" no_loader Hfuel Hfailed Hclass).
Defined.

(** What [importlib.metadata] raises when the distribution of a package
    is not installed: an instance of a subclass of [ModuleNotFoundError]. *)
Definition no_distribution : Exception :=
  Exc "PackageNotFoundError" "No package metadata was found for robot_descriptions".

Definition missing_distribution (w : unit) (X : Type)
  (e : DemoE unit unit unit unit unit unit unit X) : (Exception + X) * unit :=
  match e in DemoE _ _ _ _ _ _ _ X return (Exception + X) * unit with
  | Import _ _ _ _ _ _ _ _ => (inr tt, w)
  | ImportGuarded _ _ _ _ _ _ _ _ => (inr (Some no_distribution), w)
  | _ => (inl (Exc "RuntimeError" "no such call in this run"), w)
  end.

Lemma import_guard_translates_subclasses_witness :
  (10 < 11)%nat /\
  import_failure _ _ _ _ _ _ _
    (fst (run _ _ _ _ _ _ _ unit missing_distribution 11 tt ur5_script))
    = Some no_distribution /\
  isinstance exception_classes no_distribution "ModuleNotFoundError" = true /\
  snd (run _ _ _ _ _ _ _ unit missing_distribution 11 tt ur5_script)
    = Raised (ExcFrom "ModuleNotFoundError" hint no_distribution).
Proof.
  assert (Hfuel : (10 < 11)%nat) by lia.
  assert (Hfailed :
    import_failure _ _ _ _ _ _ _
      (fst (run _ _ _ _ _ _ _ unit missing_distribution 11 tt ur5_script))
    = Some no_distribution) by reflexivity.
  assert (Hclass : isinstance exception_classes no_distribution "ModuleNotFoundError"
                   = true) by reflexivity.
  refine (conj Hfuel (conj Hfailed (conj Hclass _))).
  exact (import_guard_translates_subclasses _ _ _ _ _ _ _ _ _ _ _ _ _ unit
           missing_distribution 11 tt "__main__" no_distribution Hfuel Hfailed Hclass).
Defined.

Lemma no_solver_no_loop_witness :
  @nil string = [] /\
  every_solve_ik _ _ _ _ _ _ _ (fun _ => False)
    (fst (run _ _ _ _ _ _ _ unit installed 19 tt ur5_script_without_solver)) /\
  count _ _ _ _ _ _ _ (@is_rate_limiter _ _ _ _ _ _ _)
    (fst (run _ _ _ _ _ _ _ unit installed 19 tt ur5_script_without_solver)) = 0%nat /\
  ((18 < 19)%nat ->
   running (snd (run _ _ _ _ _ _ _ unit installed 19 tt ur5_script_without_solver))
     = false) /\
  (forall exc,
     snd (run _ _ _ _ _ _ _ unit installed 19 tt ur5_script_without_solver)
       = Raised exc ->
     script_raise _ _ _ _ _ _ _
       (last (fst (run _ _ _ _ _ _ _ unit installed 19 tt ur5_script_without_solver))
             (Called _ _ _ _ _ _ _ (Import _ _ _ _ _ _ _ "numpy") tt)) = Some exc ->
     import_failure _ _ _ _ _ _ _
       (fst (run _ _ _ _ _ _ _ unit installed 19 tt ur5_script_without_solver)) = None ->
     exc = Exc "IndexError" "list index out of range").
Proof.
  assert (Hnone : @nil string = []) by reflexivity.
  refine (conj Hnone _).
  exact (no_solver_no_loop _ _ _ _ _ _ _ _ _ _ _ [] _ unit installed
           19 tt "__main__" Hnone).
Defined.

End ArmUr5.

(* ===================================================================== *)
(** ** [tests/test_barrier.py] *)
(* ===================================================================== *)

Module TestBarrier.
Import Py Pink.
Local Open Scope R_scope.

Section Library.

(** [pinocchio]: a model with its dimensions, and the kinematics of a
    frame at joint configuration [q]: where the frame is, and the entry
    [(i, j)] of the Jacobian of its position. *)
Variable Model : Type.
Variables nq nv : Model -> nat.
Variable frame_translation : Model -> Np.Vec -> string -> Pin.Vector3.
Variable frame_jacobian : Model -> Np.Vec -> string -> Pin.Index3 -> nat -> R.

(** [pink.Configuration(model, data, q)], as far as a barrier reads it. *)
Record Configuration : Type := MkConfiguration {
  model : Model;
  q : Np.Vec;
}.

(** What the spec leaves open about a barrier: the gain and the radius of
    a barrier built without them, the entries of its safe policy, and how
    Python prints a float and an array. *)
Variable default_gain : Gain.
Variable default_r : R.
Variable safe_policy_entry : PositionBarrier -> Configuration -> nat -> R.
Variable str_float : R -> string.
Variable str_array : Np.Vec -> string.

(** Modelled from the spec: [compute_safe_policy], missing with the class.
    The objective weighs the distance of the velocity to the safe policy
    (section 4.2 (e)), so the policy is a velocity of the model: it has one
    entry for each of the [nv] velocities, as a row of the Jacobian has;
    which entries, the spec leaves open. *)
Definition compute_safe_policy (b : PositionBarrier) (c : Configuration) : Np.Vec :=
  List.map (safe_policy_entry b c) (seq 0 (nv (model c))).

(** Modelled from the spec: the class [PositionBarrier] of [pink.barriers]
    and its base class are not among the sources.  Section 3 gives a
    barrier its bounds, a gain and an optional safety radius; the glossary
    makes its value a vector function of the configuration whose
    non-negativity encodes the constraint; sections 4.2 and 8 fix the
    shapes of what it computes and the role of the radius.  The bounded
    coordinates are those of [indices], all three when it is omitted. *)
Definition coordinates (b : PositionBarrier) : list Pin.Index3 :=
  match indices b with
  | Some l => l
  | None => [Pin.I0; Pin.I1; Pin.I2]
  end.

Definition gain (b : PositionBarrier) : Gain :=
  match pb_gain b with Some g => g | None => default_gain end.

Definition r (b : PositionBarrier) : R :=
  match pb_r b with Some x => x | None => default_r end.

(** Modelled from the spec: [barrier.dim], the constraint's own output
    dimension (section 4.2): one row for each bounded coordinate and each
    bound given. *)
Definition dim (b : PositionBarrier) : nat :=
  (match p_min b with Some _ => length (coordinates b) | None => 0 end +
   match max b with Some _ => length (coordinates b) | None => 0 end)%nat.

(** A bound has one entry for each bounded coordinate. *)
Definition well_formed (b : PositionBarrier) : Prop :=
  (forall lo, p_min b = Some lo -> length lo = length (coordinates b)) /\
  (forall hi, max b = Some hi -> length hi = length (coordinates b)).

(** Modelled from the spec: [compute_barrier], missing with the class.  The
    value is non-negative exactly when the position keeps its bounds
    (glossary): [p[i] - p_min] for a lower bound, [max - p[i]] for an upper
    bound, as the demo prints them ([value >= 0], [p[1] <= 0.6]). *)
Definition compute_barrier (b : PositionBarrier) (c : Configuration) : Np.Vec :=
  let p := frame_translation (model c) (q c) (pb_frame b) in
  match p_min b with
  | Some lo => List.map (fun il => Pin.getitem p (fst il) - snd il)
                        (combine (coordinates b) lo)
  | None => []
  end ++
  match max b with
  | Some hi => List.map (fun iu => snd iu - Pin.getitem p (fst iu))
                        (combine (coordinates b) hi)
  | None => []
  end.

(** Row [i] of the frame's Jacobian, one entry for each velocity. *)
Definition jacobian_row (b : PositionBarrier) (c : Configuration) (sign : R)
  (i : Pin.Index3) : Np.Vec :=
  List.map (fun j => sign * frame_jacobian (model c) (q c) (pb_frame b) i j)
           (seq 0 (nv (model c))).

(** Modelled from the spec: [compute_jacobian], missing with the class: the
    derivative of the barrier value, of shape [(dim, nv)] (section 4.2 (d)):
    the Jacobian row of the coordinate for a lower bound, its opposite for
    an upper bound. *)
Definition compute_jacobian (b : PositionBarrier) (c : Configuration) : Np.Matrix :=
  match p_min b with
  | Some _ => List.map (jacobian_row b c 1) (coordinates b)
  | None => []
  end ++
  match max b with
  | Some _ => List.map (jacobian_row b c (-1)) (coordinates b)
  | None => []
  end.

(** The gain of each row: a number is used for every row. *)
Definition gains (b : PositionBarrier) : Np.Vec :=
  match gain b with
  | ScalarGain g => repeat g (dim b)
  | ArrayGain v => v
  end.

(** Modelled from the spec: [compute_qp_inequality], missing with the
    class: the pair [(G, h)] that shapes the feasible region of the
    quadratic program (glossary), [G] with [dim] rows and [nv] columns
    (section 4.2 (b)).  The barrier may not decrease faster than its gain
    allows: [-J v / dt <= gain * value]. *)
Definition compute_qp_inequality (b : PositionBarrier) (c : Configuration) (dt : R)
  : Np.Matrix * Np.Vec :=
  (Np.scale2 (- (1 / dt)) (compute_jacobian b c),
   List.map (fun gh => fst gh * snd gh) (combine (gains b) (compute_barrier b c))).

(** Modelled from the spec: [compute_qp_objective], missing with the
    class: the pair [(H, c)] of the objective, [H] square of size [nv] and
    [c] of length [nv] (section 4.2 (a)).  The radius weighs the distance
    to the safe policy, [r |v - policy|^2]; with [r = 0] the barrier
    contributes nothing (section 4.2 (e)). *)
Definition compute_qp_objective (b : PositionBarrier) (c : Configuration)
  : Np.Matrix * Np.Vec :=
  (Np.scale2 (r b) (Np.eye (nv (model c))),
   Np.scale (-2 * r b) (compute_safe_policy b c)).

(** Modelled from the spec: [__repr__], missing with the class: the text
    names the gain, the safety policy and the radius, each before its
    value (sections 4.2 (f) and 8). *)
Definition str_gain (g : Gain) : string :=
  match g with
  | ScalarGain x => str_float x
  | ArrayGain v => str_array v
  end.

Definition repr (b : PositionBarrier) (safety_policy : Np.Vec) : string :=
  "Barrier(" ++ "gain=" ++ str_gain (gain b) ++
  ", " ++ "safety_policy=" ++ str_array safety_policy ++
  ", " ++ "r=" ++ str_float (r b) ++ ")".

(** *** The fixture and the barriers of the tests *)

(** [setUp]: the model is the one loaded for ["upkie_description"] with a
    free-flyer root joint; the configuration is all zeros. *)
Variable robot_model : Model.

Definition conf : Configuration := MkConfiguration robot_model (Np.zeros (nq robot_model)).

Definition dt : R := 1e-3.

(** [PositionBarrier("left_hip", p_min=np.zeros(3))] and the same with a
    radius, [PositionBarrier("left_hip", r=radius, p_min=np.zeros(3))]. *)
Definition left_hip_barrier : PositionBarrier :=
  MkPositionBarrier "left_hip" None (Some (Np.zeros 3)) None None None.

Definition left_hip_barrier_r (radius : R) : PositionBarrier :=
  MkPositionBarrier "left_hip" None (Some (Np.zeros 3)) None None (Some radius).


(* ------------------------------------------------------------------- *)
(** *** Arrays and strings *)
(* ------------------------------------------------------------------- *)

Lemma has_shape_eye n : Np.has_shape (Np.eye n) n n.
Proof.
  unfold Np.has_shape, Np.eye. rewrite length_map, length_seq. split; [reflexivity|].
  apply Forall_forall. intros row Hrow. apply in_map_iff in Hrow as [i [<- _]].
  now rewrite length_map, length_seq.
Qed.

Lemma has_shape_scale2 a M n m :
  Np.has_shape M n m -> Np.has_shape (Np.scale2 a M) n m.
Proof.
  unfold Np.has_shape, Np.scale2, Np.scale. intros [Hrows Hcols].
  rewrite length_map. split; [assumption|].
  apply Forall_forall. intros row Hrow. apply in_map_iff in Hrow as [row' [<- Hin]].
  rewrite length_map. revert row' Hin. now apply Forall_forall.
Qed.

Lemma has_shape_app M N n k m :
  Np.has_shape M n m -> Np.has_shape N k m -> Np.has_shape (M ++ N) (n + k) m.
Proof.
  unfold Np.has_shape. intros [<- HM] [<- HN].
  rewrite length_app. split; [reflexivity|]. now apply Forall_app.
Qed.

Lemma all_zero_scale a v : a = 0 -> Np.all_zero (Np.scale a v).
Proof.
  intros ->. unfold Np.all_zero, Np.scale. apply Forall_forall.
  intros x Hx. apply in_map_iff in Hx as [y [<- _]]. apply Rmult_0_l.
Qed.

Lemma all_zero2_scale2 a M : a = 0 -> Np.all_zero2 (Np.scale2 a M).
Proof.
  intros Ha. unfold Np.all_zero2, Np.scale2. apply Forall_forall.
  intros row Hrow. apply in_map_iff in Hrow as [row' [<- _]]. now apply all_zero_scale.
Qed.

Lemma all_zero_allclose0 v : Np.all_zero v -> Np.allclose0 v.
Proof.
  unfold Np.all_zero, Np.allclose0. apply Forall_impl. intros x ->.
  unfold Np.close0. rewrite Rminus_0_r, Rabs_R0. lra.
Qed.

Lemma any_nonzero_scale a v : a <> 0 -> Np.any_nonzero v -> Np.any_nonzero (Np.scale a v).
Proof.
  intros Ha. unfold Np.any_nonzero, Np.scale. intros H.
  apply Exists_exists in H as [x [Hin Hx]]. apply Exists_exists.
  exists (a * x). split; [now apply in_map|]. now apply Rmult_integral_contrapositive.
Qed.

(** [np.eye(n)] scaled by [a]: its first row starts with [a]. *)
Lemma scale2_eye_head a n :
  exists row rows, Np.scale2 a (Np.eye (S n)) = (a * 1 :: row) :: rows.
Proof. unfold Np.scale2, Np.scale, Np.eye. cbn. eauto. Qed.

Lemma prefix_app s rest : prefix s (s ++ rest)%string = true.
Proof.
  induction s as [|a s IH]; cbn; [now destruct rest|].
  destruct (Ascii.ascii_dec a a); [assumption|contradiction].
Qed.

Lemma contains_prefix s hay : prefix s hay = true -> contains s hay = true.
Proof. destruct hay; cbn; intros ->; reflexivity. Qed.

Lemma contains_here s rest : contains s (s ++ rest)%string = true.
Proof. apply contains_prefix, prefix_app. Qed.

Lemma contains_later s before rest :
  contains s rest = true -> contains s (before ++ rest)%string = true.
Proof.
  intros H. induction before as [|a before IH]; cbn; [assumption|].
  rewrite IH. apply orb_true_r.
Qed.

Ltac find_substring :=
  repeat first [ apply contains_here | apply contains_later ].

(* ------------------------------------------------------------------- *)
(** *** Shapes for any barrier *)
(* ------------------------------------------------------------------- *)

Lemma length_compute_barrier b c :
  well_formed b -> length (compute_barrier b c) = dim b.
Proof.
  intros [Hlo Hhi]. unfold compute_barrier, dim. rewrite length_app.
  destruct (p_min b) as [lo|], (max b) as [hi|]; cbn;
    rewrite ?length_map, ?length_combine, ?(Hlo _ eq_refl), ?(Hhi _ eq_refl);
    lia.
Qed.

Lemma has_shape_rows b c sign l :
  Np.has_shape (List.map (jacobian_row b c sign) l) (length l) (nv (model c)).
Proof.
  unfold Np.has_shape. rewrite length_map. split; [reflexivity|].
  apply Forall_forall. intros row Hrow. apply in_map_iff in Hrow as [i [<- _]].
  unfold jacobian_row. now rewrite length_map, length_seq.
Qed.

Lemma has_shape_nil m : Np.has_shape [] 0 m.
Proof. split; [reflexivity|constructor]. Qed.

Lemma has_shape_compute_jacobian b c :
  Np.has_shape (compute_jacobian b c) (dim b) (nv (model c)).
Proof.
  unfold compute_jacobian, dim.
  apply has_shape_app; [destruct (p_min b)|destruct (max b)];
    auto using has_shape_rows, has_shape_nil.
Qed.

(* ------------------------------------------------------------------- *)
(** *** The tests *)
(* ------------------------------------------------------------------- *)

(** C1: for the barrier on ["left_hip"] with lower bound [[0, 0, 0]], on the
    zero configuration and with [dt = 1e-3]: [H] is [nv x nv] and [c] has
    length [nv]; [G] is [dim x nv]; the barrier value has length [dim]; the
    Jacobian is [dim x nv]. *)
Theorem position_barrier_dimensions :
  Np.has_shape (fst (compute_qp_objective left_hip_barrier conf))
               (nv robot_model) (nv robot_model) /\
  length (snd (compute_qp_objective left_hip_barrier conf)) = nv robot_model /\
  Np.has_shape (fst (compute_qp_inequality left_hip_barrier conf dt))
               (dim left_hip_barrier) (nv robot_model) /\
  length (compute_barrier left_hip_barrier conf) = dim left_hip_barrier /\
  Np.has_shape (compute_jacobian left_hip_barrier conf)
               (dim left_hip_barrier) (nv robot_model).
Proof.
  pose proof (has_shape_compute_jacobian left_hip_barrier conf) as HJ.
  split; [apply has_shape_scale2, has_shape_eye|].
  split; [cbn; unfold Np.scale, compute_safe_policy;
          now rewrite !length_map, length_seq|].
  split; [now apply has_shape_scale2|].
  split; [|exact HJ].
  apply length_compute_barrier. split; cbn; intros bound [= <-]; reflexivity.
Qed.

(** C2: with [r = 0] the objective of the barrier on ["left_hip"] is zero:
    every entry of [H] and of [c] is zero, so [np.allclose(H, 0)] and
    [np.allclose(c, 0)] hold. *)
Theorem objective_without_radius :
  Np.all_zero2 (fst (compute_qp_objective (left_hip_barrier_r 0.0) conf)) /\
  Np.all_zero (snd (compute_qp_objective (left_hip_barrier_r 0.0) conf)) /\
  Np.allclose0_2 (fst (compute_qp_objective (left_hip_barrier_r 0.0) conf)) /\
  Np.allclose0 (snd (compute_qp_objective (left_hip_barrier_r 0.0) conf)).
Proof.
  assert (HH : Np.all_zero2 (fst (compute_qp_objective (left_hip_barrier_r 0.0) conf)))
    by (apply all_zero2_scale2; cbn; lra).
  assert (Hc : Np.all_zero (snd (compute_qp_objective (left_hip_barrier_r 0.0) conf)))
    by (apply all_zero_scale; cbn; lra).
  repeat split; try assumption.
  - revert HH. apply Forall_impl. exact all_zero_allclose0.
  - now apply all_zero_allclose0.
Qed.

(** C3: with [r = 1] the matrix [H] of the barrier on ["left_hip"] is not
    all zero, and not close to zero either; if the safe policy is non-zero
    in some component, so is [c]. *)
Theorem objective_with_radius :
  (0 < nv robot_model)%nat ->
  Np.any_nonzero2 (fst (compute_qp_objective (left_hip_barrier_r 1.0) conf)) /\
  ~ Np.allclose0_2 (fst (compute_qp_objective (left_hip_barrier_r 1.0) conf)) /\
  (Np.any_nonzero (compute_safe_policy (left_hip_barrier_r 1.0) conf) ->
   Np.any_nonzero (snd (compute_qp_objective (left_hip_barrier_r 1.0) conf))).
Proof.
  intros Hnv. unfold compute_qp_objective. cbn [fst snd model conf r pb_r left_hip_barrier_r].
  destruct (nv robot_model) as [|n]; [lia|].
  destruct (scale2_eye_head 1.0 n) as (row & rows & ->).
  repeat split.
  - apply Exists_cons_hd, Exists_cons_hd. lra.
  - intros Hclose. inversion Hclose as [|? ? Hrow _]; subst.
    inversion Hrow as [|? ? Hentry _]; subst.
    unfold Np.close0 in Hentry. rewrite Rabs_R0, Rminus_0_r, Rabs_pos_eq in Hentry; lra.
  - apply any_nonzero_scale. lra.
Qed.

(** C4: the text of a barrier holds ["gain="], ["safety_policy="] and
    ["r="], and the gain, the safety policy and the radius as they print. *)
Theorem repr_names_its_fields b safety_policy :
  contains "gain=" (repr b safety_policy) = true /\
  contains "safety_policy=" (repr b safety_policy) = true /\
  contains "r=" (repr b safety_policy) = true /\
  contains (str_gain (gain b)) (repr b safety_policy) = true /\
  contains (str_array safety_policy) (repr b safety_policy) = true /\
  contains (str_float (r b)) (repr b safety_policy) = true.
Proof. unfold repr. repeat split; find_substring. Qed.

End Library.

(* ------------------------------------------------------------------- *)
(** *** A model with a free-flyer root joint only *)
(* ------------------------------------------------------------------- *)

(** Seven coordinates (a position and a quaternion) and six velocities;
    every entry of the safe policy is zero. *)
Definition free_flyer_nq (m : unit) : nat := 7.
Definition free_flyer_nv (m : unit) : nat := 6.

Definition no_policy (b : PositionBarrier) (c : Configuration unit) (j : nat) : R := 0.

Lemma objective_with_radius_witness :
  (0 < free_flyer_nv tt)%nat /\
  Np.any_nonzero2
    (fst (compute_qp_objective unit free_flyer_nv 1 no_policy
            (left_hip_barrier_r 1.0) (conf unit free_flyer_nq tt))).
Proof.
  assert (Hnv : (0 < free_flyer_nv tt)%nat) by (cbv; lia).
  split; [exact Hnv|].
  exact (proj1 (objective_with_radius unit free_flyer_nq free_flyer_nv 1 no_policy tt Hnv)).
Defined.

End TestBarrier.
